(** * Single-variable constant propagation

    A shallow embedding of
    [clang/unittests/Analysis/FlowSensitive/SingleVarConstantPropagationTest.cpp]:
    the semi-lattice [ConstantPropagationLattice], the AST matcher used by
    [ConstantPropagationAnalysis::transfer] and the transfer function itself,
    followed by the properties of the lattice, of the transfer function and of
    the scenarios exercised by the unit tests. *)

From Stdlib Require Import ZArith NArith PArith List String Bool Lia.
From Stdlib Require Import Ascii DecimalString.
Import ListNotations.

Open Scope string_scope.

Set Warnings "-register-all".

(** ** Pointers

    A [const VarDecl *] is an address; address [0] is the null pointer.
    Objects live at non-null addresses, so a node of the AST carries a
    [positive]. *)

Definition ptr := N.
Definition nullptr : ptr := 0%N.
Definition addressOf (a : positive) : ptr := N.pos a.

(** ** The fragment of the Clang AST the matcher inspects *)

(** [BinaryOperatorKind], in the order of [OperationKinds.def]. *)
Inductive BinaryOperatorKind :=
| BO_PtrMemD | BO_PtrMemI
| BO_Mul | BO_Div | BO_Rem
| BO_Add | BO_Sub
| BO_Shl | BO_Shr
| BO_Cmp
| BO_LT | BO_GT | BO_LE | BO_GE
| BO_EQ | BO_NE
| BO_And | BO_Xor | BO_Or
| BO_LAnd | BO_LOr
| BO_Assign
| BO_MulAssign | BO_DivAssign | BO_RemAssign
| BO_AddAssign | BO_SubAssign
| BO_ShlAssign | BO_ShrAssign
| BO_AndAssign | BO_XorAssign | BO_OrAssign
| BO_Comma.

(** [BinaryOperator::getOpcodeStr]. *)
Definition getOpcodeStr (Opc : BinaryOperatorKind) : string :=
  match Opc with
  | BO_PtrMemD => ".*" | BO_PtrMemI => "->*"
  | BO_Mul => "*" | BO_Div => "/" | BO_Rem => "%"
  | BO_Add => "+" | BO_Sub => "-"
  | BO_Shl => "<<" | BO_Shr => ">>"
  | BO_Cmp => "<=>"
  | BO_LT => "<" | BO_GT => ">" | BO_LE => "<=" | BO_GE => ">="
  | BO_EQ => "==" | BO_NE => "!="
  | BO_And => "&" | BO_Xor => "^" | BO_Or => "|"
  | BO_LAnd => "&&" | BO_LOr => "||"
  | BO_Assign => "="
  | BO_MulAssign => "*=" | BO_DivAssign => "/=" | BO_RemAssign => "%="
  | BO_AddAssign => "+=" | BO_SubAssign => "-="
  | BO_ShlAssign => "<<=" | BO_ShrAssign => ">>="
  | BO_AndAssign => "&=" | BO_XorAssign => "^=" | BO_OrAssign => "|="
  | BO_Comma => ","
  end.

(** [BinaryOperator::isAssignmentOp]:
    [Opc >= BO_Assign && Opc <= BO_OrAssign]. *)
Definition isAssignmentOp (Opc : BinaryOperatorKind) : bool :=
  match Opc with
  | BO_Assign
  | BO_MulAssign | BO_DivAssign | BO_RemAssign
  | BO_AddAssign | BO_SubAssign
  | BO_ShlAssign | BO_ShrAssign
  | BO_AndAssign | BO_XorAssign | BO_OrAssign => true
  | _ => false
  end.

(** The compound assignments: the assignment operators other than [=]. *)
Definition isCompoundAssignmentOp (Opc : BinaryOperatorKind) : bool :=
  match Opc with
  | BO_Assign => false
  | _ => isAssignmentOp Opc
  end.

(** Types, as far as [Type::isIntegerType] tells them apart. *)
Inductive QualType :=
| Ty_Bool | Ty_Char | Ty_Short | Ty_Int | Ty_UInt | Ty_Long | Ty_ULong
| Ty_Float | Ty_Double | Ty_Pointer | Ty_Record | Ty_Void.

Definition isIntegerType (T : QualType) : bool :=
  match T with
  | Ty_Bool | Ty_Char | Ty_Short | Ty_Int | Ty_UInt | Ty_Long | Ty_ULong => true
  | Ty_Float | Ty_Double | Ty_Pointer | Ty_Record | Ty_Void => false
  end.

(** Expressions and the declarations they refer to.  A [VarDecl] is
    identified by its address; [ParmVarDecl] is a [VarDecl]. *)
Inductive Expr :=
| IntegerLiteral (Val : Z)
| DeclRefExpr (D : Decl)
| CallExpr (Callee : Expr) (Args : list Expr)
| BinaryOperator (Opc : BinaryOperatorKind) (LHS RHS : Expr)
| ParenExpr (SubExpr : Expr)
| ImplicitCastExpr (SubExpr : Expr)
| CStyleCastExpr (TypeAsWritten : QualType) (SubExpr : Expr)
with Decl :=
| VarDecl (Addr : positive) (Name : string) (Ty : QualType)
          (Init : option Expr)
| FunctionDecl (Addr : positive) (Name : string).

(** Statements; an [Expr] is a [Stmt]. *)
Inductive Stmt :=
| DeclStmt (Decls : list Decl)
| ExprStmt (E : Expr)
| NullStmt
| ReturnStmt (RetValue : option Expr).

(** ** Bound nodes *)

Inductive DynTypedNode :=
| DTN_Decl (D : Decl)
| DTN_Stmt (S : Stmt).

Class ToDynTypedNode (T : Type) := create : T -> DynTypedNode.
#[export] Instance Decl_node : ToDynTypedNode Decl := DTN_Decl.
#[export] Instance Stmt_node : ToDynTypedNode Stmt := DTN_Stmt.
#[export] Instance Expr_node : ToDynTypedNode Expr :=
  fun E => DTN_Stmt (ExprStmt E).

(** [BoundNodes]: the nodes bound to string IDs by a match.  A later
    binding of an ID shadows an earlier one. *)
Definition BoundNodes := list (string * DynTypedNode).

Fixpoint getNode (Nodes : BoundNodes) (ID : string) : option DynTypedNode :=
  match Nodes with
  | [] => None
  | (k, n) :: rest => if String.eqb k ID then Some n else getNode rest ID
  end.

(** [Nodes.getNodeAs<clang::VarDecl>(ID)]: the address of the bound
    [VarDecl], [nullptr] when [ID] is unbound or bound to another kind of
    node. *)
Definition getNodeAs_VarDecl (Nodes : BoundNodes) (ID : string) : ptr :=
  match getNode Nodes ID with
  | Some (DTN_Decl (VarDecl a _ _ _)) => addressOf a
  | _ => nullptr
  end.

(** [Nodes.getNodeAs<clang::Expr>(ID)]: [None] stands for [nullptr]. *)
Definition getNodeAs_Expr (Nodes : BoundNodes) (ID : string) : option Expr :=
  match getNode Nodes ID with
  | Some (DTN_Stmt (ExprStmt E)) => Some E
  | _ => None
  end.

(** ** AST matchers

    A matcher either fails or extends the bindings collected so far. *)

Definition Matcher (T : Type) := T -> BoundNodes -> option BoundNodes.

Definition bind {T} `{ToDynTypedNode T} (ID : string) (M : Matcher T)
  : Matcher T :=
  fun Node B =>
    match M Node B with
    | Some B' => Some ((ID, create Node) :: B')
    | None => None
    end.

Fixpoint allOf {T} (Ms : list (Matcher T)) : Matcher T :=
  fun Node B =>
    match Ms with
    | [] => Some B
    | M :: rest =>
        match M Node B with
        | Some B' => allOf rest Node B'
        | None => None
        end
    end.

(** [anyOf]: the first alternative that matches decides the bindings. *)
Fixpoint anyOf {T} (Ms : list (Matcher T)) : Matcher T :=
  fun Node B =>
    match Ms with
    | [] => None
    | M :: rest =>
        match M Node B with
        | Some B' => Some B'
        | None => anyOf rest Node B
        end
    end.

Definition stmt (M : Matcher Stmt) : Matcher Stmt := M.

Definition expr : Matcher Expr := fun _ B => Some B.

Definition declStmt (M : Matcher (list Decl)) : Matcher Stmt :=
  fun S B =>
    match S with
    | DeclStmt Decls => M Decls B
    | _ => None
    end.

Definition hasSingleDecl (M : Matcher Decl) : Matcher (list Decl) :=
  fun Decls B =>
    match Decls with
    | [D] => M D B
    | _ => None
    end.

Definition varDecl (Ms : list (Matcher Decl)) : Matcher Decl :=
  fun D B =>
    match D with
    | VarDecl _ _ _ _ => allOf Ms D B
    | _ => None
    end.

Definition isInteger : QualType -> bool := isIntegerType.

Definition hasType (P : QualType -> bool) : Matcher Decl :=
  fun D B =>
    match D with
    | VarDecl _ _ T _ => if P T then Some B else None
    | _ => None
    end.

Definition hasInitializer (M : Matcher Expr) : Matcher Decl :=
  fun D B =>
    match D with
    | VarDecl _ _ _ (Some Init) => M Init B
    | _ => None
    end.

(** The operands of a [BinaryOperator] node; [CompoundAssignOperator] is a
    [BinaryOperator]. *)
Record BinaryOperatorNode := {
  getOpcode : BinaryOperatorKind;
  getLHS : Expr;
  getRHS : Expr
}.

Definition binaryOperator (Ms : list (Matcher BinaryOperatorNode))
  : Matcher Stmt :=
  fun S B =>
    match S with
    | ExprStmt (BinaryOperator Opc L R) =>
        allOf Ms {| getOpcode := Opc; getLHS := L; getRHS := R |} B
    | _ => None
    end.

Definition hasOperatorName (Name : string) : Matcher BinaryOperatorNode :=
  fun Node B =>
    if String.eqb (getOpcodeStr (getOpcode Node)) Name then Some B else None.

Definition isAssignmentOperator : Matcher BinaryOperatorNode :=
  fun Node B => if isAssignmentOp (getOpcode Node) then Some B else None.

Definition hasLHS (M : Matcher Expr) : Matcher BinaryOperatorNode :=
  fun Node B => M (getLHS Node) B.

Definition hasRHS (M : Matcher Expr) : Matcher BinaryOperatorNode :=
  fun Node B => M (getRHS Node) B.

Definition declRefExpr (M : Matcher Decl) : Matcher Expr :=
  fun E B =>
    match E with
    | DeclRefExpr D => M D B
    | _ => None
    end.

Definition to (M : Matcher Decl) : Matcher Decl := M.

(** [match(Matcher, Node, Context)]: the matcher is tried on [Node] itself,
    not on its descendants. *)
Definition match_ {T} (M : Matcher T) (Node : T) : list BoundNodes :=
  match M Node [] with
  | Some B => [B]
  | None => []
  end.

(** ** The matcher of the analysis *)

Definition kVar := "var".
Definition kInit := "init".
Definition kJustAssignment := "just-assignment".
Definition kAssignment := "assignment".
Definition kRHS := "rhs".

Definition refToVar : Matcher Expr :=
  declRefExpr (to (bind kVar (varDecl []))).

Definition matcher : Matcher Stmt :=
  stmt
    (anyOf
       [ declStmt
           (hasSingleDecl
              (bind kVar
                 (varDecl [ hasType isInteger;
                            hasInitializer (bind kInit expr) ])));
         bind kJustAssignment
           (binaryOperator [ hasOperatorName "=";
                             hasLHS refToVar;
                             hasRHS (bind kRHS expr) ]);
         bind kAssignment
           (binaryOperator [ isAssignmentOperator;
                             hasLHS refToVar ]) ]).

(** ** The statement kinds of the transfer contract *)

(** The classification of section 6 of the specification, read off the
    shape of a statement: the declaration of an integer-typed variable
    with an initializer, the simple assignment to a variable, the
    compound assignment to a variable, anything else. *)
Inductive StmtKind :=
| DeclarationWithInitializer (V : positive) (Init : Expr)
| SimpleAssignment (V : positive) (RHS : Expr)
| CompoundAssignment (V : positive)
| OtherStatement.

Definition classify (S : Stmt) : StmtKind :=
  match S with
  | DeclStmt [VarDecl a _ T (Some Init)] =>
      if isIntegerType T then DeclarationWithInitializer a Init
      else OtherStatement
  | ExprStmt (BinaryOperator Opc (DeclRefExpr (VarDecl a _ _ _)) R) =>
      match Opc with
      | BO_Assign => SimpleAssignment a R
      | _ => if isAssignmentOp Opc then CompoundAssignment a
             else OtherStatement
      end
  | _ => OtherStatement
  end.

(** ** The lattice *)

(** [struct VarValue]: [Value] is the [int64_t] the variable holds; the
    analysis compares values and never computes with them. *)
Record VarValue := {
  Var : ptr;
  Value : Z
}.

(** [operator==(VarValue, VarValue)]. *)
Definition VarValue_eq (Lhs Rhs : VarValue) : bool :=
  N.eqb (Var Lhs) (Var Rhs) && Z.eqb (Value Lhs) (Value Rhs).

(** [llvm::Optional<T>::operator==]: both empty, or both engaged with
    equal values. *)
Definition Optional_eq {T} (eq : T -> T -> bool) (X Y : option T) : bool :=
  match X, Y with
  | Some x, Some y => eq x y
  | None, None => true
  | _, _ => false
  end.

(** [struct ConstantPropagationLattice]: [None] is bottom, a null [Var] is
    top. *)
Record ConstantPropagationLattice := {
  Data : option VarValue
}.

Definition bottom : ConstantPropagationLattice := {| Data := None |}.

Definition top : ConstantPropagationLattice :=
  {| Data := Some {| Var := nullptr; Value := 0 |} |}.

(** [ConstantPropagationLattice{{{Var, Value}}}]. *)
Definition known (V : ptr) (Val : Z) : ConstantPropagationLattice :=
  {| Data := Some {| Var := V; Value := Val |} |}.

(** [operator==(const ConstantPropagationLattice &, ...)]. *)
Definition Lattice_eq (Lhs Rhs : ConstantPropagationLattice) : bool :=
  Optional_eq VarValue_eq (Data Lhs) (Data Rhs).

Infix "==" := Lattice_eq (at level 70, no associativity).

Inductive LatticeJoinEffect := Unchanged | Changed.

(** [join]: the receiver is passed in and handed back next to the effect. *)
Definition join (This Other : ConstantPropagationLattice)
  : ConstantPropagationLattice * LatticeJoinEffect :=
  if (This == Other) || (Other == bottom) || (This == top) then
    (This, Unchanged)
  else if This == bottom then
    (Other, Changed)
  else
    (top, Changed).

(** The three states of an element. *)
Definition isBottom (E : ConstantPropagationLattice) : bool := E == bottom.
Definition isTop (E : ConstantPropagationLattice) : bool := E == top.
Definition isKnown (E : ConstantPropagationLattice) : bool :=
  match Data E with
  | Some V => negb (N.eqb (Var V) nullptr)
  | None => false
  end.

(** The order induced by [join]: [A] is below [B] when joining [B] into
    [A] gives [B]. *)
Definition below (A B : ConstantPropagationLattice) : Prop :=
  fst (join A B) = B.

(** The lattice order the source's comments describe: [None] is
    bottom, a null [Var] with value 0 is top, and every other element
    stands alone between them. *)
Definition leq (A B : ConstantPropagationLattice) : bool :=
  (A == bottom) || (B == top) || (A == B).

(** The matchers of the unit tests. *)

(** The parameter of [HasConstantVal] keeps the integer type the test
    passes: a signed type, or an unsigned type of the given width in
    bits. *)
Inductive MatcherParam :=
| SignedParam (v : Z)
| UnsignedParam (width : N) (v : Z).

Definition paramValue (p : MatcherParam) : Z :=
  match p with
  | SignedParam v => v
  | UnsignedParam _ v => v
  end.

(** [Value == v] for the [int64_t] [Value], after the usual arithmetic
    conversions: against a signed type, or an unsigned type narrower
    than 64 bits, both operands keep their values; against an unsigned
    type of 64 bits or more, [Value] is converted to that type. *)
Definition valueEquals (Value : Z) (v : MatcherParam) : bool :=
  match v with
  | SignedParam v => Z.eqb Value v
  | UnsignedParam width v =>
      if N.ltb width 64 then Z.eqb Value v
      else Z.eqb (Value mod 2 ^ Z.of_N width) v
  end.

Definition HasConstantVal (v : MatcherParam)
           (arg : ConstantPropagationLattice) : bool :=
  match Data arg with
  | Some V => valueEquals (Value V) v
  | None => false
  end.
Definition IsUnknown (arg : ConstantPropagationLattice) : bool := arg == bottom.
Definition Varies (arg : ConstantPropagationLattice) : bool := arg == top.

(** ** The analysis *)

(** A failed [assert] aborts the run: [None]. *)
Definition assert (b : bool) : option unit := if b then Some tt else None.

Notation "x <- c ;; k" :=
  (match c with Some x => k | None => None end)
  (at level 61, c at next level, right associativity).
Notation "c ;;; k" :=
  (match c with Some _ => k | None => None end)
  (at level 61, right associativity).

Definition isNonNull {T} (P : option T) : bool :=
  match P with Some _ => true | None => false end.

(** ** Control-flow graphs *)

(** Modelled from the spec: the control-flow graph the engine consumes
    (section 6): blocks in order, each with its statements and the
    indices of its predecessors; block [0] is the entry. *)
Record CFGBlock := {
  Stmts : list Stmt;
  Preds : list nat
}.

(** Modelled from the spec: a graph is the ordered collection of its
    blocks. *)
Definition CFG := list CFGBlock.

(** Modelled from the spec: the merge of the predecessors' exit elements,
    a join that starts from bottom (section 4.3, step 3). *)
Definition joinAll (Elements : list ConstantPropagationLattice)
  : ConstantPropagationLattice :=
  fold_left (fun Acc E => fst (join Acc E)) Elements bottom.

(** Modelled from the spec: the store of exit elements, one per block:
    block [i] gets a new exit element. *)
Fixpoint setExit (Exits : list ConstantPropagationLattice) (i : nat)
         (E : ConstantPropagationLattice) : list ConstantPropagationLattice :=
  match Exits, i with
  | [], _ => []
  | _ :: rest, O => E :: rest
  | X :: rest, S i' => X :: setExit rest i' E
  end.

(** Modelled from the spec: no exit element changed, by the lattice's
    own equality. *)
Fixpoint sameElements (Xs Ys : list ConstantPropagationLattice) : bool :=
  match Xs, Ys with
  | [], [] => true
  | X :: Xs', Y :: Ys' => (X == Y) && sameElements Xs' Ys'
  | _, _ => false
  end.

Definition initialElement : ConstantPropagationLattice := bottom.

Section Analysis.

(** [EvaluateAsInt E] is [Some v] when
    [E->EvaluateAsInt(R, Context) && R.Val.isInt()] holds, [v] being
    [R.Val.getInt().getExtValue()].  The constant evaluator belongs to
    Clang's AST library. *)
Variable EvaluateAsInt : Expr -> option Z.

Definition evaluated (V : ptr) (E : Expr) : ConstantPropagationLattice :=
  match EvaluateAsInt E with
  | Some v => known V v
  | None => top
  end.

(** [ConstantPropagationAnalysis::transfer].  The environment is not
    touched and is left out. *)
Definition transfer (S : Stmt) (Element : ConstantPropagationLattice)
  : option ConstantPropagationLattice :=
  let Results := match_ matcher S in
  match Results with
  | [] => Some Element
  | Nodes :: _ =>
      let Var := getNodeAs_VarDecl Nodes kVar in
      assert (negb (N.eqb Var nullptr)) ;;;
      match getNodeAs_Expr Nodes kInit with
      | Some E => Some (evaluated Var E)
      | None =>
          if isNonNull (getNodeAs_Expr Nodes kJustAssignment) then
            let RHS := getNodeAs_Expr Nodes kRHS in
            assert (isNonNull RHS) ;;;
            match RHS with
            | Some RHS => Some (evaluated Var RHS)
            | None => None
            end
          else if isNonNull (getNodeAs_Expr Nodes kAssignment) then
            Some top
          else
            Some Element
      end
  end.

(** The transfer contract of section 4.2 of the specification, by
    statement kind. *)
Definition transferByKind (K : StmtKind)
           (Element : ConstantPropagationLattice)
  : ConstantPropagationLattice :=
  match K with
  | DeclarationWithInitializer V Init => evaluated (addressOf V) Init
  | SimpleAssignment V RHS => evaluated (addressOf V) RHS
  | CompoundAssignment _ => top
  | OtherStatement => Element
  end.

(** The elements the analysis can produce. *)
Inductive reachable : ConstantPropagationLattice -> Prop :=
| reachable_bottom : reachable bottom
| reachable_top : reachable top
| reachable_join A B :
    reachable A -> reachable B -> reachable (fst (join A B))
| reachable_transfer S E E' :
    reachable E -> transfer S E = Some E' -> reachable E'.

(** *** The engine that runs the analysis *)

(** Modelled from the spec: the fold of the transfer function across a
    block's statements (section 4.3, step 4); the framework's own code
    is not part of the file.  The result lists the element as it stood
    immediately before each statement, followed by the block's exit
    element. *)
Fixpoint transferBlock (Stmts : list Stmt)
         (Element : ConstantPropagationLattice)
  : option (list ConstantPropagationLattice) :=
  match Stmts with
  | [] => Some [Element]
  | St :: rest =>
      Next <- transfer St Element ;;
      After <- transferBlock rest Next ;;
      Some (Element :: After)
  end.

(** Modelled from the spec: a block's entry element (section 4.3,
    step 3, and the BlockState of section 3): the initial element for
    the entry block, block [0]; otherwise the join of the predecessors'
    exit elements. *)
Definition blockEntry (g : CFG) (Exits : list ConstantPropagationLattice)
           (i : nat) : ConstantPropagationLattice :=
  match i with
  | O => initialElement
  | _ =>
      match nth_error g i with
      | Some B => joinAll (map (fun p => nth p Exits bottom) (Preds B))
      | None => bottom
      end
  end.

(** Modelled from the spec: the elements recorded in block [i] for the
    given exit elements of its predecessors. *)
Definition blockPoints (g : CFG) (Exits : list ConstantPropagationLattice)
           (i : nat) : option (list ConstantPropagationLattice) :=
  match nth_error g i with
  | Some B => transferBlock (Stmts B) (blockEntry g Exits i)
  | None => None
  end.

(** Modelled from the spec: a block's exit element, the last of the
    elements recorded in it. *)
Definition blockExit (g : CFG) (Exits : list ConstantPropagationLattice)
           (i : nat) : option ConstantPropagationLattice :=
  Points <- blockPoints g Exits i ;;
  Some (last Points bottom).

(** Modelled from the spec: one round over the blocks [i], [i+1], ...
    in the order of the graph, each block reading the current exit
    elements of its predecessors and storing its own. *)
Fixpoint round (g : CFG) (n i : nat)
         (Exits : list ConstantPropagationLattice)
  : option (list ConstantPropagationLattice) :=
  match n with
  | O => Some Exits
  | S n' =>
      Exit <- blockExit g Exits i ;;
      round g n' (S i) (setExit Exits i Exit)
  end.

(** Modelled from the spec: the iteration of section 4.3, repeated
    until no exit element changes.  Every block starts at bottom; the
    order in which blocks are taken is a freedom of the engine, and
    here every block is taken once per round, in the order of the
    graph, so that each block is visited.  [None] when the fuel runs
    out or an assertion of the transfer function fails. *)
Fixpoint solve (fuel : nat) (g : CFG)
         (Exits : list ConstantPropagationLattice)
  : option (list ConstantPropagationLattice) :=
  match fuel with
  | O => None
  | S fuel' =>
      Exits' <- round g (List.length g) 0 Exits ;;
      if sameElements Exits' Exits then Some Exits
      else solve fuel' g Exits'
  end.

Definition runDataflow (fuel : nat) (g : CFG)
  : option (list ConstantPropagationLattice) :=
  solve fuel g (repeat bottom (List.length g)).

(** Modelled from the spec: a fixpoint (glossary): exit elements that
    another round leaves as they are. *)
Definition isFixpoint (g : CFG) (Exits : list ConstantPropagationLattice)
  : Prop :=
  round g (List.length g) 0 Exits = Some Exits.

(** Modelled from the spec: the result store (section 4.4): the
    element at a program point, the position in block [fst Point] after
    [snd Point] of its statements. *)
Definition resultAt (g : CFG) (Exits : list ConstantPropagationLattice)
           (Point : nat * nat) : option ConstantPropagationLattice :=
  Points <- blockPoints g Exits (fst Point) ;;
  nth_error Points (snd Point).

End Analysis.

(** ** A constant evaluator for the scenarios *)

Definition fitsInt (v : Z) : bool :=
  (Z.leb (- 2147483648) v && Z.leb v 2147483647)%Z.

(** Modelled from the spec: the compile-time-constant integer
    expressions of the scenarios (section 8): a literal, and a sum,
    difference or product of constants that does not overflow [int];
    anything else, such as a call, is not a constant.  It stands for
    Clang's [Expr::EvaluateAsInt], which is not part of the file. *)
Fixpoint foldConstant (E : Expr) : option Z :=
  match E with
  | IntegerLiteral v => Some v
  | ParenExpr Sub => foldConstant Sub
  | BinaryOperator Opc L R =>
      match foldConstant L, foldConstant R with
      | Some l, Some r =>
          let fold v := if fitsInt v then Some v else None in
          match Opc with
          | BO_Add => fold (l + r)%Z
          | BO_Sub => fold (l - r)%Z
          | BO_Mul => fold (l * r)%Z
          | _ => None
          end
      | _, _ => None
      end
  | _ => None
  end.

(** ** The programs of the unit tests *)

Module Scenario.

(** The variables [target] and [other], the parameter [b], the
    function [g]. *)
Definition target : Decl := VarDecl 1 "target" Ty_Int None.
Definition other (Init : Expr) : Decl := VarDecl 2 "other" Ty_Int (Some Init).
Definition b : Decl := VarDecl 3 "b" Ty_Bool None.
Definition g : Decl := FunctionDecl 4 "g".

Definition targetInit (Init : Expr) : Decl :=
  VarDecl 1 "target" Ty_Int (Some Init).

(** [target = RHS]: the operands come before the operator, as CFG
    elements of their own. *)
Definition assign (Opc : BinaryOperatorKind) (D : Decl) (RHS : Expr)
  : list Stmt :=
  [ ExprStmt RHS;
    ExprStmt (DeclRefExpr D);
    ExprStmt (BinaryOperator Opc (DeclRefExpr D) RHS) ].

(** [(void)0;] *)
Definition voidZero : list Stmt :=
  [ ExprStmt (IntegerLiteral 0);
    ExprStmt (CStyleCastExpr Ty_Void (IntegerLiteral 0)) ].

(** [if (b)]: the condition of the branch. *)
Definition condition : list Stmt :=
  [ ExprStmt (DeclRefExpr b);
    ExprStmt (ImplicitCastExpr (DeclRefExpr b)) ].

(** The graph of
    [int target; if (b) { target = X; } else { target = Y; } (void)0;]:
    entry, declaration and condition, the two arms, the merge, exit. *)
Definition assignmentInBranches (X Y : Z) : CFG :=
  [ {| Stmts := []; Preds := [] |};
    {| Stmts := DeclStmt [target] :: condition; Preds := [0] |};
    {| Stmts := assign BO_Assign target (IntegerLiteral X); Preds := [1] |};
    {| Stmts := assign BO_Assign target (IntegerLiteral Y); Preds := [1] |};
    {| Stmts := voidZero; Preds := [2; 3] |};
    {| Stmts := []; Preds := [4] |} ]%nat.

Definition SameAssignmentInBranches : CFG := assignmentInBranches 2 2.
Definition DifferentAssignmentInBranches : CFG := assignmentInBranches 1 2.

(** The program points of these two tests. *)
Definition p1 : nat * nat := (1, 1)%nat.
Definition pT : nat * nat := (2, 3)%nat.
Definition pF : nat * nat := (3, 3)%nat.
Definition p2 : nat * nat := (4, 2)%nat.

(** [int target = 1; target += 2;] *)
Definition PlusAssignment : CFG :=
  [ {| Stmts := []; Preds := [] |};
    {| Stmts := ExprStmt (IntegerLiteral 1)
                  :: DeclStmt [targetInit (IntegerLiteral 1)]
                  :: assign BO_AddAssign target (IntegerLiteral 2);
       Preds := [0] |};
    {| Stmts := []; Preds := [1] |} ]%nat.

End Scenario.

(** ** Printing *)

(** [operator<<(std::ostream &, const ConstantPropagationLattice &)].
    The stream is the text written so far; [getName a] is the name of
    the [VarDecl] at address [a].  Going through a null [Var] has no
    result: [None]. *)
Definition print (getName : positive -> string) (OS : string)
           (L : ConstantPropagationLattice) : option string :=
  if L == bottom then Some (OS ++ "None")
  else if L == top then Some (OS ++ "Any")
  else
    match Data L with
    | Some V =>
        match Var V with
        | N0 => None
        | Npos a =>
            Some (((OS ++ getName a) ++ " = ")
                    ++ NilZero.string_of_int (Z.to_int (Value V)))
        end
    | None => None
    end.

(** Whether a text has a blank in it. *)
Fixpoint hasBlank (s : string) : bool :=
  match s with
  | EmptyString => false
  | String c rest => Ascii.eqb c " "%char || hasBlank rest
  end.

(** ** Repeated joins into one receiver *)

(** [This.join(Other)] for each [Other] in turn, on the same receiver:
    the receiver at the end and the number of calls that returned
    [Changed]. *)
Fixpoint joinEach (This : ConstantPropagationLattice)
         (Others : list ConstantPropagationLattice)
  : ConstantPropagationLattice * nat :=
  match Others with
  | [] => (This, O)
  | Other :: rest =>
      let (Next, Effect) := join This Other in
      let (Final, n) := joinEach Next rest in
      (Final, match Effect with Changed => S n | Unchanged => n end)
  end.

(** The height of an element: bottom, then the elements that are
    neither bottom nor top, then top. *)
Definition height (E : ConstantPropagationLattice) : nat :=
  if E == bottom then 0 else if E == top then 2 else 1.

(** * Properties *)

(** ** Equality of lattice elements *)

Lemma VarValue_eq_reflect (X Y : VarValue) : reflect (X = Y) (VarValue_eq X Y).
Proof.
  destruct X as [xv xz], Y as [yv yz]; unfold VarValue_eq; cbn.
  destruct (N.eqb_spec xv yv) as [-> | Hv]; cbn.
  - destruct (Z.eqb_spec xz yz) as [-> | Hz]; constructor; congruence.
  - constructor; congruence.
Qed.

Lemma Lattice_eq_reflect (A B : ConstantPropagationLattice) :
  reflect (A = B) (A == B).
Proof.
  destruct A as [[x |]], B as [[y |]]; unfold Lattice_eq; cbn;
    try (constructor; congruence).
  destruct (VarValue_eq_reflect x y); constructor; congruence.
Qed.

Lemma Lattice_eq_true (A B : ConstantPropagationLattice) :
  (A == B) = true <-> A = B.
Proof. destruct (Lattice_eq_reflect A B); split; congruence. Qed.

Lemma Lattice_eq_refl (A : ConstantPropagationLattice) : (A == A) = true.
Proof. now apply Lattice_eq_true. Qed.

Lemma bottom_neq_top : bottom <> top.
Proof. discriminate. Qed.

(** Decide every comparison the goal makes, innermost first. *)
Ltac decide_eq :=
  repeat match goal with
         | |- context [Lattice_eq ?a ?b] =>
             lazymatch a with context [Lattice_eq _ _] => fail | _ => idtac end;
             lazymatch b with context [Lattice_eq _ _] => fail | _ => idtac end;
             destruct (Lattice_eq_reflect a b); cbn [orb andb fst snd]
         end.

Ltac join_cases :=
  unfold below, join in *; decide_eq; subst;
  try congruence; try discriminate.

(** ** The value and the effect of [join] *)

Lemma join_idempotent X : fst (join X X) = X.
Proof. unfold join. now rewrite Lattice_eq_refl. Qed.

Lemma join_commutative X Y : fst (join X Y) = fst (join Y X).
Proof. join_cases. Qed.

Lemma join_bottom_l X : fst (join bottom X) = X.
Proof. join_cases. Qed.

Lemma join_bottom_r X : fst (join X bottom) = X.
Proof. join_cases. Qed.

Lemma join_top_l X : fst (join top X) = top.
Proof. join_cases. Qed.

Lemma join_top_r X : fst (join X top) = top.
Proof. join_cases. Qed.

(** [join] computes the least upper bound of the flat order: bottom
    below every element, top above every element. *)
Lemma join_value X Y :
  fst (join X Y) =
  if X == bottom then Y
  else if Y == bottom then X
  else if X == Y then X
  else top.
Proof. join_cases. Qed.

Lemma join_associative X Y Z :
  fst (join (fst (join X Y)) Z) = fst (join X (fst (join Y Z))).
Proof.
  rewrite !join_value. decide_eq; subst;
    solve [ congruence | unfold top, bottom in *; congruence ].
Qed.

(** The effect reported by [join] tells whether the receiver changed. *)
Lemma join_effect A B :
  snd (join A B) = Changed <-> fst (join A B) <> A.
Proof.
  unfold join; decide_eq; subst; cbn; split; intros H;
    try congruence; try discriminate; try (exfalso; apply H; reflexivity).
Qed.

(** ** The order induced by [join] *)

Lemma below_refl A : below A A.
Proof. apply join_idempotent. Qed.

Lemma below_antisym A B : below A B -> below B A -> A = B.
Proof.
  unfold below; intros H1 H2. rewrite <- H2 at 1.
  rewrite join_commutative. exact H1.
Qed.

Lemma below_trans A B C : below A B -> below B C -> below A C.
Proof.
  unfold below; intros H1 H2.
  rewrite <- H2, <- join_associative, H1. reflexivity.
Qed.

Lemma bottom_below A : below bottom A.
Proof. apply join_bottom_l. Qed.

Lemma below_top A : below A top.
Proof. apply join_top_r. Qed.

Lemma below_join_l A B : below A (fst (join A B)).
Proof.
  unfold below. rewrite <- join_associative, join_idempotent. reflexivity.
Qed.

Lemma below_join_r A B : below B (fst (join A B)).
Proof. rewrite join_commutative. apply below_join_l. Qed.

Lemma join_least A B U : below A U -> below B U -> below (fst (join A B)) U.
Proof.
  unfold below; intros HA HB. rewrite join_associative, HB. exact HA.
Qed.

(** C6: the value produced by [join] obeys the lattice laws, compared
    with the lattice's own [operator==]: joining an element with itself
    gives that element, the order of the operands does not matter, nor
    does the grouping of three operands, bottom is the identity and top
    is absorbing.  The laws hold for all elements of the type, and so
    for the reachable ones. *)
Theorem join_lattice_laws (X Y Z : ConstantPropagationLattice) :
  (fst (join X X) == X) = true /\
  (fst (join X Y) == fst (join Y X)) = true /\
  (fst (join (fst (join X Y)) Z) == fst (join X (fst (join Y Z)))) = true /\
  (fst (join bottom X) == X) = true /\
  (fst (join top X) == top) = true.
Proof.
  repeat split; apply Lattice_eq_true.
  - apply join_idempotent.
  - apply join_commutative.
  - apply join_associative.
  - apply join_bottom_l.
  - apply join_top_l.
Qed.

Lemma leq_iff A B : leq A B = true <-> A = bottom \/ B = top \/ A = B.
Proof.
  unfold leq. decide_eq; subst; cbn; split; intros H; auto;
    try discriminate; destruct H as [H | [H | H]]; congruence.
Qed.

Lemma leq_refl A : leq A A = true.
Proof. apply leq_iff. auto. Qed.

Lemma leq_antisym A B : leq A B = true -> leq B A = true -> A = B.
Proof.
  rewrite !leq_iff. intros [H1 | [H1 | H1]] [H2 | [H2 | H2]]; subst; auto;
    discriminate.
Qed.

Lemma leq_trans A B C : leq A B = true -> leq B C = true -> leq A C = true.
Proof.
  rewrite !leq_iff. intros [H1 | [H1 | H1]] [H2 | [H2 | H2]]; subst; auto;
    discriminate.
Qed.

(** C8: [A.join(B)] reports [Changed] exactly when the receiver after
    the call differs from the receiver before it, by [operator==] and so
    by structural equality; and the receiver after the call is the
    least upper bound of [A] and [B] in the lattice order, bottom below
    every element and top above every element: it is above both, and
    below every element that is above both. *)
Theorem join_reports_change_and_is_lub (A B : ConstantPropagationLattice) :
  (snd (join A B) = Changed <-> (fst (join A B) == A) = false) /\
  (snd (join A B) = Changed <-> fst (join A B) <> A) /\
  leq A (fst (join A B)) = true /\
  leq B (fst (join A B)) = true /\
  (forall U, leq A U = true -> leq B U = true ->
             leq (fst (join A B)) U = true).
Proof.
  split; [| split; [| split; [| split]]].
  - rewrite join_effect.
    destruct (Lattice_eq_reflect (fst (join A B)) A); split; congruence.
  - apply join_effect.
  - apply leq_iff. rewrite join_value. decide_eq; subst; auto.
  - apply leq_iff. rewrite join_value. decide_eq; subst; auto.
  - intros U HA HB. apply leq_iff in HA, HB. apply leq_iff.
    rewrite join_value. decide_eq; subst; auto.
    destruct HA as [HA | [HA | HA]], HB as [HB | [HB | HB]];
      subst; auto; congruence.
Qed.

(** ** Known values *)

Lemma isKnown_known (a : positive) (v : Z) :
  isKnown (known (addressOf a) v) = true.
Proof. reflexivity. Qed.

Lemma isKnown_not_bottom K : isKnown K = true -> K <> bottom.
Proof. intros H ->. discriminate. Qed.

Lemma isKnown_not_top K : isKnown K = true -> K <> top.
Proof. intros H ->. discriminate. Qed.

(** Above a known value there is only that value and top. *)
Lemma below_known_cases K R : isKnown K = true -> below K R -> R = K \/ R = top.
Proof.
  intros HK. pose proof (isKnown_not_bottom K HK) as Hb.
  unfold below. rewrite join_value.
  decide_eq; subst; intros H; auto; congruence.
Qed.

(** ** Merging the exit elements of predecessors *)

Lemma fold_join_above_start Es Acc :
  below Acc (fold_left (fun A E => fst (join A E)) Es Acc).
Proof.
  revert Acc; induction Es as [| E Es IH]; intros Acc; cbn.
  - apply below_refl.
  - eapply below_trans; [apply below_join_l | apply IH].
Qed.

Lemma fold_join_above_member Es Acc E :
  In E Es -> below E (fold_left (fun A E => fst (join A E)) Es Acc).
Proof.
  revert Acc; induction Es as [| E' Es IH]; intros Acc HIn; cbn.
  - destruct HIn.
  - destruct HIn as [-> | HIn].
    + eapply below_trans; [apply below_join_r | apply fold_join_above_start].
    + now apply IH.
Qed.

Lemma joinAll_above_member Es E : In E Es -> below E (joinAll Es).
Proof. apply fold_join_above_member. Qed.

Lemma fold_join_all_equal Es K :
  (forall E, In E Es -> E = K) ->
  fold_left (fun A E => fst (join A E)) Es K = K.
Proof.
  induction Es as [| E Es IH]; intros Hall; cbn; [reflexivity |].
  rewrite (Hall E (or_introl eq_refl)), join_idempotent.
  apply IH. intros E' HIn. apply Hall. now right.
Qed.

Lemma joinAll_all_equal Es K :
  Es <> [] -> (forall E, In E Es -> E = K) -> joinAll Es = K.
Proof.
  destruct Es as [| E Es]; [congruence |]. intros _ Hall.
  unfold joinAll; cbn.
  rewrite (Hall E (or_introl eq_refl)), join_bottom_l.
  apply fold_join_all_equal. intros E' HIn. apply Hall. now right.
Qed.

Lemma joinAll_disagree Es K1 K2 :
  isKnown K1 = true -> isKnown K2 = true -> K1 <> K2 ->
  In K1 Es -> In K2 Es -> joinAll Es = top.
Proof.
  intros H1 H2 Hne In1 In2.
  destruct (below_known_cases K1 _ H1 (joinAll_above_member Es K1 In1));
    destruct (below_known_cases K2 _ H2 (joinAll_above_member Es K2 In2));
    congruence.
Qed.

(** C7: the join of two known values is that value when they are equal
    and top when they differ; so the merge of predecessors' exit
    elements is top as soon as two of them hold different known values,
    and is the shared known value when all of them hold it. *)
Theorem join_of_known_values (K1 K2 : ConstantPropagationLattice)
        (H1 : isKnown K1 = true) (H2 : isKnown K2 = true) :
  (K1 = K2 -> join K1 K2 = (K1, Unchanged)) /\
  (K1 <> K2 -> join K1 K2 = (top, Changed)) /\
  (forall Es, In K1 Es -> In K2 Es -> K1 <> K2 -> joinAll Es = top) /\
  (forall Es, Es <> [] -> (forall E, In E Es -> E = K1) -> joinAll Es = K1).
Proof.
  pose proof (isKnown_not_bottom _ H1). pose proof (isKnown_not_bottom _ H2).
  pose proof (isKnown_not_top _ H1).
  split; [| split; [| split]].
  - intros <-. unfold join. now rewrite Lattice_eq_refl.
  - intros Hne. unfold join. decide_eq; congruence.
  - intros Es In1 In2 Hne. now apply (joinAll_disagree Es K1 K2).
  - intros Es. apply joinAll_all_equal.
Qed.

Lemma join_of_known_values_witness :
  join (known (addressOf 1) 1) (known (addressOf 1) 2) = (top, Changed) /\
  joinAll [known (addressOf 1) 1; known (addressOf 1) 2] = top /\
  join (known (addressOf 1) 2) (known (addressOf 1) 2)
    = (known (addressOf 1) 2, Unchanged) /\
  joinAll [known (addressOf 1) 2; known (addressOf 1) 2] = known (addressOf 1) 2.
Proof.
  destruct (join_of_known_values (known (addressOf 1) 1)
              (known (addressOf 1) 2) eq_refl eq_refl)
    as (_ & Hdiff & Hmerge & _).
  destruct (join_of_known_values (known (addressOf 1) 2)
              (known (addressOf 1) 2) eq_refl eq_refl)
    as (Hsame & _ & _ & Hagree).
  split; [| split; [| split]].
  - apply Hdiff. discriminate.
  - apply Hmerge; cbn; auto. discriminate.
  - now apply Hsame.
  - apply Hagree; [discriminate |]. cbn. intuition congruence.
Defined.

(** ** The matcher and the statement kinds *)

Lemma isCompoundAssignmentOp_isAssignmentOp Opc :
  isCompoundAssignmentOp Opc = true ->
  isAssignmentOp Opc = true /\ Opc <> BO_Assign.
Proof. destruct Opc; cbn; intros H; split; congruence. Qed.

(** The matcher finds nothing exactly on the statements of the kind
    [OtherStatement]. *)
Lemma match_empty_iff_other (S : Stmt) :
  match_ matcher S = [] <-> classify S = OtherStatement.
Proof.
  destruct S as [Decls | E | | R]; cbn; try tauto.
  - destruct Decls as [| [a n T [Init |] | a n] [| D' Decls]]; cbn; try tauto.
    all: destruct T; cbn; split; congruence.
  - destruct E as [v | D | C As | Opc L R | Sub | Sub | T Sub]; cbn; try tauto.
    destruct L as [v | [a n T Init | a n] | C As | Opc' L' R' | Sub | Sub
                  | T Sub];
      destruct Opc; cbn; split; congruence.
Qed.

Section TransferProperties.

Variable EvaluateAsInt : Expr -> option Z.

#[local] Abbreviation transfer := (transfer EvaluateAsInt).
#[local] Abbreviation transferByKind := (transferByKind EvaluateAsInt).
#[local] Abbreviation reachable := (reachable EvaluateAsInt).

(** The transfer function never fails an assertion, and does what
    the contract says for the kind of the statement. *)
Lemma transfer_refines_contract S Element :
  transfer S Element = Some (transferByKind (classify S) Element).
Proof.
  destruct S as [Decls | E | | R]; try reflexivity.
  - destruct Decls as [| [a n T [Init |] | a n] [| D' Decls]];
      try reflexivity.
    all: destruct T; reflexivity.
  - destruct E as [v | D | C As | Opc L R | Sub | Sub | T Sub];
      try reflexivity.
    destruct L as [v | [a n T Init | a n] | C As | Opc' L' R' | Sub | Sub
                  | T Sub];
      destruct Opc; reflexivity.
Qed.

Lemma transfer_total S Element : exists E', transfer S Element = Some E'.
Proof. eexists. apply transfer_refines_contract. Qed.

(** C2: on the declaration of an integer-typed variable whose
    initializer evaluates to a constant, the result is the known value
    of the declared variable, whatever the incoming element was, a
    known value of another variable included. *)
Theorem transfer_declaration_with_constant_initializer
        (a : positive) (n : string) (T : QualType) (Init : Expr) (v : Z)
        (Element : ConstantPropagationLattice)
        (HT : isIntegerType T = true)
        (HInit : EvaluateAsInt Init = Some v) :
  transfer (DeclStmt [VarDecl a n T (Some Init)]) Element
  = Some (known (addressOf a) v).
Proof.
  rewrite transfer_refines_contract. cbn. rewrite HT. cbn.
  unfold evaluated. now rewrite HInit.
Qed.

(** C3: on a simple assignment [var = RHS] the result is the known
    value of the assigned variable when [RHS] evaluates to a constant
    and top when it does not, whatever the incoming element was; in
    both cases the transfer function returns normally. *)
Theorem transfer_simple_assignment
        (a : positive) (n : string) (T : QualType) (Init : option Expr)
        (RHS : Expr) (Element : ConstantPropagationLattice) :
  transfer
    (ExprStmt (BinaryOperator BO_Assign (DeclRefExpr (VarDecl a n T Init)) RHS))
    Element
  = Some match EvaluateAsInt RHS with
         | Some v => known (addressOf a) v
         | None => top
         end.
Proof. now rewrite transfer_refines_contract. Qed.

(** C4: on a compound assignment to a variable the result is top,
    whatever the incoming element was, and top is not a known value
    of that variable. *)
Theorem transfer_compound_assignment
        (Opc : BinaryOperatorKind)
        (a : positive) (n : string) (T : QualType) (Init : option Expr)
        (RHS : Expr) (Element : ConstantPropagationLattice)
        (HOpc : isCompoundAssignmentOp Opc = true) :
  transfer
    (ExprStmt (BinaryOperator Opc (DeclRefExpr (VarDecl a n T Init)) RHS))
    Element
  = Some top
  /\ forall v, top <> known (addressOf a) v.
Proof.
  split; [| discriminate].
  rewrite transfer_refines_contract.
  destruct Opc; try discriminate; reflexivity.
Qed.

(** C5: on a statement that is neither a declaration with
    initializer, nor a simple assignment, nor a compound assignment,
    the matcher finds nothing and the transfer function returns
    normally with the element unchanged. *)
Theorem transfer_other_statement
        (S : Stmt) (Element : ConstantPropagationLattice)
        (HOther : classify S = OtherStatement) :
  match_ matcher S = [] /\ transfer S Element = Some Element.
Proof.
  split.
  - now apply match_empty_iff_other.
  - rewrite transfer_refines_contract. now rewrite HOther.
Qed.

(** A reachable element is bottom, top, or the known value of a
    variable at a non-null address. *)
Lemma reachable_shape E :
  reachable E ->
  E = bottom \/ E = top \/ exists a v, E = known (addressOf a) v.
Proof.
  induction 1 as [| | A B HA IHA HB IHB | S E E' HE IHE HT].
  - auto.
  - auto.
  - rewrite join_value. decide_eq; auto.
  - rewrite transfer_refines_contract in HT. injection HT as <-.
    destruct (classify S) as [a Init | a RHS | a |]; cbn; auto;
      unfold evaluated; destruct (EvaluateAsInt _); eauto.
Qed.

(** C9: a reachable element is in exactly one of the states bottom,
    top and known value; an element that is neither bottom nor top
    carries a non-null variable; and an element with a non-null
    variable is neither top nor bottom. *)
Theorem reachable_exactly_one_state
        (E : ConstantPropagationLattice) (HR : reachable E) :
  ((isBottom E = true /\ isTop E = false /\ isKnown E = false) \/
   (isBottom E = false /\ isTop E = true /\ isKnown E = false) \/
   (isBottom E = false /\ isTop E = false /\ isKnown E = true)) /\
  (isBottom E = false -> isTop E = false ->
   exists V, Data E = Some V /\ Var V <> nullptr) /\
  (forall V, Data E = Some V -> Var V <> nullptr ->
             E <> top /\ E <> bottom).
Proof.
  destruct (reachable_shape E HR) as [-> | [-> | (a & v & ->)]].
  - split; [auto | split]; [discriminate | intros V HV; discriminate].
  - split; [auto | split]; [discriminate |].
    intros V [= <-] HV. now destruct HV.
  - split; [cbn; auto | split].
    + intros _ _. eexists; split; [reflexivity | discriminate].
    + intros V _ _. split; discriminate.
Qed.

(** C10: on a statement of one of the three kinds the result is the
    same for every incoming element; on every statement the transfer
    function returns normally and is monotone for the order induced
    by [join]. *)
Theorem transfer_ignores_input_and_is_monotone (S : Stmt) :
  (classify S <> OtherStatement ->
   forall E1 E2, transfer S E1 = transfer S E2) /\
  (forall E1 E2, below E1 E2 ->
     exists E1' E2',
       transfer S E1 = Some E1' /\ transfer S E2 = Some E2' /\ below E1' E2').
Proof.
  split.
  - intros HK E1 E2. rewrite !transfer_refines_contract.
    destruct (classify S); [reflexivity .. | congruence].
  - intros E1 E2 Hle. do 2 eexists.
    rewrite !transfer_refines_contract. repeat split.
    destruct (classify S); cbn; auto using below_refl.
Qed.

(** *** The engine stops at a fixpoint *)

Lemma sameElements_true Xs Ys : sameElements Xs Ys = true -> Xs = Ys.
Proof.
  revert Ys; induction Xs as [| X Xs IH]; intros [| Y Ys]; cbn;
    try discriminate; [reflexivity |].
  intros H. apply andb_prop in H as [HXY Hrest].
  apply Lattice_eq_true in HXY. f_equal; auto.
Qed.

Lemma solve_fixpoint fuel g Exits0 Exits :
  solve EvaluateAsInt fuel g Exits0 = Some Exits ->
  isFixpoint EvaluateAsInt g Exits.
Proof.
  revert Exits0; induction fuel as [| fuel IH]; intros Exits0; cbn;
    [discriminate |].
  destruct (round EvaluateAsInt g (List.length g) 0 Exits0)
    as [Exits' |] eqn:HR; [| discriminate].
  destruct (sameElements Exits' Exits0) eqn:HS.
  - intros [= <-]. apply sameElements_true in HS. subst Exits'. exact HR.
  - apply IH.
Qed.

Lemma runDataflow_fixpoint fuel g Exits :
  runDataflow EvaluateAsInt fuel g = Some Exits ->
  isFixpoint EvaluateAsInt g Exits.
Proof. apply solve_fixpoint. Qed.

End TransferProperties.

(** ** The transfer function on the statements of the unit tests *)

Lemma transfer_declaration_with_constant_initializer_witness :
  isIntegerType Ty_Int = true /\
  foldConstant (IntegerLiteral 2) = Some 2%Z /\
  transfer foldConstant
    (DeclStmt [Scenario.other (IntegerLiteral 2)]) (known (addressOf 1) 1)
  = Some (known (addressOf 2) 2).
Proof.
  split; [reflexivity | split; [reflexivity |]].
  apply (transfer_declaration_with_constant_initializer foldConstant);
    reflexivity.
Defined.

Lemma transfer_compound_assignment_witness :
  isCompoundAssignmentOp BO_AddAssign = true /\
  transfer foldConstant
    (ExprStmt (BinaryOperator BO_AddAssign (DeclRefExpr Scenario.target)
                              (IntegerLiteral 2)))
    (known (addressOf 1) 1)
  = Some top /\
  top <> known (addressOf 1) 3.
Proof.
  split; [reflexivity |].
  destruct (transfer_compound_assignment foldConstant BO_AddAssign
              1 "target" Ty_Int None (IntegerLiteral 2)
              (known (addressOf 1) 1) eq_refl) as [Htop Hnot].
  split; [exact Htop | apply Hnot].
Defined.

Lemma transfer_other_statement_witness :
  classify (DeclStmt [Scenario.target]) = OtherStatement /\
  transfer foldConstant (DeclStmt [Scenario.target]) (known (addressOf 2) 2)
  = Some (known (addressOf 2) 2).
Proof.
  split; [reflexivity |].
  apply (transfer_other_statement foldConstant (DeclStmt [Scenario.target]));
    reflexivity.
Defined.

Lemma reachable_exactly_one_state_witness :
  reachable foldConstant (known (addressOf 1) 1) /\
  isBottom (known (addressOf 1) 1) = false /\
  isTop (known (addressOf 1) 1) = false /\
  isKnown (known (addressOf 1) 1) = true.
Proof.
  assert (HR : reachable foldConstant (known (addressOf 1) 1)).
  { apply (reachable_transfer foldConstant
             (DeclStmt [Scenario.targetInit (IntegerLiteral 1)]) bottom).
    - apply reachable_bottom.
    - reflexivity. }
  split; [exact HR |].
  destruct (reachable_exactly_one_state foldConstant _ HR)
    as [[(Hb & _ & _) | [(_ & Ht & _) | Hk]] _].
  - discriminate Hb.
  - discriminate Ht.
  - exact Hk.
Defined.

Lemma transfer_ignores_input_and_is_monotone_witness :
  transfer foldConstant
    (ExprStmt (BinaryOperator BO_Assign (DeclRefExpr Scenario.target)
                              (IntegerLiteral 3)))
    bottom
  = transfer foldConstant
      (ExprStmt (BinaryOperator BO_Assign (DeclRefExpr Scenario.target)
                                (IntegerLiteral 3)))
      (known (addressOf 2) 2).
Proof.
  apply (transfer_ignores_input_and_is_monotone foldConstant).
  discriminate.
Defined.

(** ** The test [SameAssignmentInBranches] *)

(** C1, as the specification words it, does not hold: the element
    before the branch is not top. *)
Lemma SameAssignmentInBranches_p1_is_not_top :
  ~ exists fuel Exits,
      runDataflow foldConstant fuel Scenario.SameAssignmentInBranches
      = Some Exits /\
      resultAt foldConstant Scenario.SameAssignmentInBranches Exits Scenario.p1
      = Some top /\
      resultAt foldConstant Scenario.SameAssignmentInBranches Exits Scenario.pT
      = Some (known (addressOf 1) 2) /\
      resultAt foldConstant Scenario.SameAssignmentInBranches Exits Scenario.pF
      = Some (known (addressOf 1) 2) /\
      resultAt foldConstant Scenario.SameAssignmentInBranches Exits Scenario.p2
      = Some (known (addressOf 1) 2).
Proof.
  intros (fuel & Exits & Hrun & Hp1 & _).
  destruct fuel as [| [| fuel]]; try discriminate Hrun.
  vm_compute in Hrun. injection Hrun as <-.
  vm_compute in Hp1. discriminate Hp1.
Qed.

(** C1, amended: the analysis of [SameAssignmentInBranches] reaches a
    fixpoint in which the element before the branch is bottom, the
    elements in both arms are the known value 2 of [target], and so is
    the element after the merge; these are the elements the test
    expects. *)
Theorem SameAssignmentInBranches_results :
  exists fuel Exits,
    runDataflow foldConstant fuel Scenario.SameAssignmentInBranches
    = Some Exits /\
    isFixpoint foldConstant Scenario.SameAssignmentInBranches Exits /\
    resultAt foldConstant Scenario.SameAssignmentInBranches Exits Scenario.p1
    = Some bottom /\
    resultAt foldConstant Scenario.SameAssignmentInBranches Exits Scenario.pT
    = Some (known (addressOf 1) 2) /\
    resultAt foldConstant Scenario.SameAssignmentInBranches Exits Scenario.pF
    = Some (known (addressOf 1) 2) /\
    resultAt foldConstant Scenario.SameAssignmentInBranches Exits Scenario.p2
    = Some (known (addressOf 1) 2) /\
    IsUnknown bottom = true /\
    HasConstantVal (SignedParam 2) (known (addressOf 1) 2) = true.
Proof.
  exists 2%nat. eexists.
  split; [vm_compute; reflexivity |].
  split; [vm_compute; reflexivity |].
  repeat split.
Qed.

(** ** The other tests *)

(** [TwoVariables]: [int target = 1; int other = 2; target = 3;] tracks
    the variable declared or assigned last. *)
Example TwoVariables_results :
  transferBlock foldConstant
    [ DeclStmt [Scenario.targetInit (IntegerLiteral 1)];
      DeclStmt [Scenario.other (IntegerLiteral 2)];
      ExprStmt (BinaryOperator BO_Assign (DeclRefExpr Scenario.target)
                               (IntegerLiteral 3)) ]
    initialElement
  = Some [ bottom; known (addressOf 1) 1; known (addressOf 2) 2;
           known (addressOf 1) 3 ].
Proof. reflexivity. Qed.

(** [AssignmentCall]: [target = g();] gives top, and [AssignmentBinOp]:
    [target = 2 + 3;] gives the known value 5. *)
Example AssignmentCall_AssignmentBinOp_results :
  transfer foldConstant
    (ExprStmt (BinaryOperator BO_Assign (DeclRefExpr Scenario.target)
                 (CallExpr (ImplicitCastExpr (DeclRefExpr Scenario.g)) [])))
    bottom
  = Some top /\
  transfer foldConstant
    (ExprStmt (BinaryOperator BO_Assign (DeclRefExpr Scenario.target)
                 (BinaryOperator BO_Add (IntegerLiteral 2) (IntegerLiteral 3))))
    bottom
  = Some (known (addressOf 1) 5).
Proof. split; reflexivity. Qed.

(** With [target = 1] in one arm and [target = 2] in the other, the
    element after the merge is top. *)
Example DifferentAssignmentInBranches_results :
  exists Exits,
    runDataflow foldConstant 2 Scenario.DifferentAssignmentInBranches
    = Some Exits /\
    map (resultAt foldConstant Scenario.DifferentAssignmentInBranches Exits)
        [Scenario.p1; Scenario.pT; Scenario.pF; Scenario.p2]
    = [Some bottom; Some (known (addressOf 1) 1);
       Some (known (addressOf 1) 2); Some top] /\
    Varies top = true.
Proof. eexists. repeat split; vm_compute; reflexivity. Qed.

(** [int target = 1;] gives the known value 1, [target += 2;] gives
    top. *)
Example PlusAssignment_results :
  exists Exits,
    runDataflow foldConstant 2 Scenario.PlusAssignment = Some Exits /\
    map (resultAt foldConstant Scenario.PlusAssignment Exits)
        [(1, 2)%nat; (1, 5)%nat]
    = [Some (known (addressOf 1) 1); Some top].
Proof. eexists. split; vm_compute; reflexivity. Qed.

(** * Further properties of the source *)

(** ** Equality and the order of the lattice *)

(** X1: [operator==] on [VarValue] and on lattice elements decides
    structural equality: it answers true exactly on equal operands, so
    it is reflexive, symmetric and transitive. *)
Theorem operator_eq_decides_equality
        (V W : VarValue) (A B C : ConstantPropagationLattice) :
  (VarValue_eq V W = true <-> V = W) /\
  ((A == B) = true <-> A = B) /\
  (A == A) = true /\
  (A == B) = (B == A) /\
  ((A == B) = true -> (B == C) = true -> (A == C) = true).
Proof.
  split; [| split; [| split; [| split]]].
  - destruct (VarValue_eq_reflect V W); split; congruence.
  - destruct (Lattice_eq_reflect A B); split; congruence.
  - destruct (Lattice_eq_reflect A A); congruence.
  - destruct (Lattice_eq_reflect A B), (Lattice_eq_reflect B A); congruence.
  - destruct (Lattice_eq_reflect A B), (Lattice_eq_reflect B C),
      (Lattice_eq_reflect A C); congruence.
Qed.

Lemma below_cases A B : below A B <-> A = bottom \/ B = top \/ A = B.
Proof.
  unfold below. rewrite join_value. split.
  - decide_eq; subst; intros H; auto.
  - intros [-> | [-> | ->]]; decide_eq; subst; auto;
      unfold top, bottom in *; congruence.
Qed.

(** X2: the order induced by [join] is flat: [A] is below [B] exactly
    when [A] is bottom, [B] is top, or the two are equal; two different
    elements that are neither bottom nor top are not comparable. *)
Theorem below_is_the_flat_order (A B : ConstantPropagationLattice) :
  (below A B <-> A = bottom \/ B = top \/ A = B) /\
  (A <> B -> A <> bottom -> B <> bottom -> A <> top -> B <> top ->
   ~ below A B /\ ~ below B A).
Proof.
  split; [apply below_cases |].
  intros Hne Ha Hb Ha' Hb'. rewrite !below_cases. intuition congruence.
Qed.

Lemma below_is_the_flat_order_witness :
  ~ below (known (addressOf 1) 1) (known (addressOf 1) 2) /\
  ~ below (known (addressOf 1) 2) (known (addressOf 1) 1).
Proof.
  apply (below_is_the_flat_order (known (addressOf 1) 1)
                                 (known (addressOf 1) 2));
    discriminate.
Defined.

(** X3: [This.join(Other)] returns [Unchanged] exactly when [Other] is
    below [This]; on [Changed] the new receiver is [Other] when the
    receiver was bottom and top otherwise. *)
Theorem join_unchanged_iff_other_below
        (This Other : ConstantPropagationLattice) :
  (snd (join This Other) = Unchanged <-> below Other This) /\
  (snd (join This Other) = Changed ->
   (This = bottom /\ fst (join This Other) = Other) \/
   (This <> bottom /\ fst (join This Other) = top)).
Proof.
  split.
  - rewrite below_cases. unfold join. decide_eq; subst; cbn; split;
      intros H; auto; try discriminate;
      destruct H as [H | [H | H]]; congruence.
  - unfold join. decide_eq; subst; cbn; intros H; auto; discriminate.
Qed.

(** X4: the value of [join] is the receiver, the other operand or top,
    and it is bottom only when both operands are. *)
Theorem join_value_is_an_operand_or_top
        (This Other : ConstantPropagationLattice) :
  (fst (join This Other) = This \/ fst (join This Other) = Other \/
   fst (join This Other) = top) /\
  (fst (join This Other) = bottom <-> This = bottom /\ Other = bottom).
Proof.
  rewrite join_value. split.
  - decide_eq; auto.
  - decide_eq; subst; split; intros H; try tauto; try discriminate;
      destruct H; congruence.
Qed.

(** X5: [join] is monotone in both operands. *)
Theorem join_monotone (A A' B B' : ConstantPropagationLattice)
        (HA : below A A') (HB : below B B') :
  below (fst (join A B)) (fst (join A' B')).
Proof.
  apply join_least.
  - eapply below_trans; [exact HA | apply below_join_l].
  - eapply below_trans; [exact HB | apply below_join_r].
Qed.

Lemma join_monotone_witness :
  below (fst (join bottom (known (addressOf 1) 1)))
        (fst (join (known (addressOf 1) 2) (known (addressOf 1) 1))).
Proof.
  apply (join_monotone bottom (known (addressOf 1) 2)
                       (known (addressOf 1) 1) (known (addressOf 1) 1));
    reflexivity.
Defined.

(** ** The height of the lattice *)

Lemma join_height This Other :
  match snd (join This Other) with
  | Changed => (height This < height (fst (join This Other)))%nat
  | Unchanged => fst (join This Other) = This
  end.
Proof.
  unfold join, height. decide_eq; subst; cbn; try reflexivity; try lia;
    solve [ congruence | unfold top, bottom in *; congruence ].
Qed.

Lemma height_le_2 E : (height E <= 2)%nat.
Proof. unfold height. decide_eq; lia. Qed.

Lemma joinEach_height Others This :
  (snd (joinEach This Others) + height This
   <= height (fst (joinEach This Others)))%nat.
Proof.
  revert This; induction Others as [| Other rest IH]; intros This; cbn.
  - lia.
  - pose proof (join_height This Other) as HJ.
    destruct (join This Other) as [Next Effect]; cbn in HJ.
    specialize (IH Next).
    destruct (joinEach Next rest) as [Final n]; cbn in *.
    destruct Effect; [subst Next |]; lia.
Qed.

(** X6: however many elements are joined into one receiver, [join]
    returns [Changed] at most twice, at most once when the receiver
    did not start at bottom, and never when it started at top; the
    final receiver is the join of all of them. *)
Theorem joinEach_changes_at_most_twice
        (This : ConstantPropagationLattice)
        (Others : list ConstantPropagationLattice) :
  (snd (joinEach This Others) <= 2)%nat /\
  (This <> bottom -> (snd (joinEach This Others) <= 1)%nat) /\
  (This = top -> snd (joinEach This Others) = 0%nat) /\
  fst (joinEach This Others)
  = fold_left (fun Acc E => fst (join Acc E)) Others This.
Proof.
  pose proof (joinEach_height Others This) as HH.
  pose proof (height_le_2 (fst (joinEach This Others))) as H2.
  split; [lia | split; [| split]].
  - intros Hb. assert (1 <= height This)%nat; [| lia].
    unfold height. decide_eq; try congruence; lia.
  - intros ->. change (height top) with 2%nat in HH. lia.
  - clear HH H2. revert This.
    induction Others as [| Other rest IH]; intros This; cbn; [reflexivity |].
    rewrite <- IH. destruct (join This Other) as [Next Effect]; cbn.
    now destruct (joinEach Next rest).
Qed.

Lemma joinEach_changes_at_most_twice_witness :
  (snd (joinEach (known (addressOf 1) 1)
                 [known (addressOf 1) 1; known (addressOf 1) 2;
                  known (addressOf 2) 3; bottom]) <= 1)%nat.
Proof.
  apply (joinEach_changes_at_most_twice (known (addressOf 1) 1)).
  discriminate.
Defined.

(** ** What a match binds *)

(** X7: the matcher yields at most one result, and a result binds
    [var] to a variable declaration and exactly one of [init],
    [just-assignment] and [assignment]; with [just-assignment] it binds
    [rhs] too.  So neither assertion of the transfer function can fail
    and the order of its three cases does not matter. *)
Theorem matcher_bindings (S : Stmt) (Nodes : BoundNodes)
        (HIn : In Nodes (match_ matcher S)) :
  match_ matcher S = [Nodes] /\
  getNodeAs_VarDecl Nodes kVar <> nullptr /\
  (Nat.b2n (isNonNull (getNodeAs_Expr Nodes kInit))
   + Nat.b2n (isNonNull (getNodeAs_Expr Nodes kJustAssignment))
   + Nat.b2n (isNonNull (getNodeAs_Expr Nodes kAssignment)) = 1)%nat /\
  (isNonNull (getNodeAs_Expr Nodes kJustAssignment) = true ->
   isNonNull (getNodeAs_Expr Nodes kRHS) = true).
Proof.
  destruct S as [Decls | E | | R]; cbn in HIn; try contradiction.
  - destruct Decls as [| [a n T [Init |] | a n] [| D' Decls]];
      cbn in HIn; try contradiction.
    all: destruct T; cbn in HIn; try contradiction.
    all: destruct HIn as [<- | []]; repeat split; discriminate.
  - destruct E as [v | D | C As | Opc L R | Sub | Sub | T Sub];
      cbn in HIn; try contradiction.
    destruct L as [v | [a n T Init | a n] | C As | Opc' L' R' | Sub | Sub
                  | T Sub];
      destruct Opc; cbn in HIn; try contradiction.
    all: destruct HIn as [<- | []]; repeat split; discriminate.
Qed.

Lemma matcher_bindings_witness :
  getNodeAs_VarDecl
    [ (kJustAssignment,
       DTN_Stmt (ExprStmt (BinaryOperator BO_Assign
                             (DeclRefExpr Scenario.target)
                             (IntegerLiteral 2))));
      (kRHS, DTN_Stmt (ExprStmt (IntegerLiteral 2)));
      (kVar, DTN_Decl Scenario.target) ] kVar
  <> nullptr.
Proof.
  apply (matcher_bindings
           (ExprStmt (BinaryOperator BO_Assign (DeclRefExpr Scenario.target)
                                     (IntegerLiteral 2)))).
  left. reflexivity.
Defined.

(** X8: a simple assignment satisfies the third alternative of the
    matcher as well as the second; the order of the alternatives makes
    the match bind [just-assignment] and not [assignment]. *)
Theorem simple_assignment_matches_two_alternatives
        (a : positive) (n : string) (T : QualType) (Init : option Expr)
        (RHS : Expr) :
  let S := ExprStmt (BinaryOperator BO_Assign
                       (DeclRefExpr (VarDecl a n T Init)) RHS) in
  isNonNull
    (bind kAssignment
       (binaryOperator [isAssignmentOperator; hasLHS refToVar]) S [])
  = true /\
  exists Nodes,
    match_ matcher S = [Nodes] /\
    getNodeAs_Expr Nodes kJustAssignment
    = Some (BinaryOperator BO_Assign (DeclRefExpr (VarDecl a n T Init)) RHS) /\
    getNodeAs_Expr Nodes kRHS = Some RHS /\
    getNodeAs_Expr Nodes kAssignment = None.
Proof. cbn. split; [reflexivity |]. eexists. repeat split. Qed.

(** ** The transfer function, case by case *)

Section TransferCases.

Variable EvaluateAsInt : Expr -> option Z.

#[local] Abbreviation transfer := (transfer EvaluateAsInt).

(** X9: on the declaration of an integer-typed variable whose
    initializer does not evaluate to a constant the result is top,
    whatever the incoming element was. *)
Theorem transfer_declaration_with_other_initializer
        (a : positive) (n : string) (T : QualType) (Init : Expr)
        (Element : ConstantPropagationLattice)
        (HT : isIntegerType T = true)
        (HInit : EvaluateAsInt Init = None) :
  transfer (DeclStmt [VarDecl a n T (Some Init)]) Element = Some top.
Proof.
  rewrite transfer_refines_contract. cbn. rewrite HT. cbn.
  unfold evaluated. now rewrite HInit.
Qed.

(** X10: a declaration statement leaves the element as it was when it
    declares a variable without initializer, a variable that is not of
    integer type, something that is not a variable, or not exactly one
    thing. *)
Theorem transfer_declaration_not_matched
        (a : positive) (n : string) (T : QualType) (Init : option Expr)
        (D1 D2 : Decl) (Ds : list Decl)
        (Element : ConstantPropagationLattice) :
  transfer (DeclStmt [VarDecl a n T None]) Element = Some Element /\
  (isIntegerType T = false ->
   transfer (DeclStmt [VarDecl a n T Init]) Element = Some Element) /\
  transfer (DeclStmt [FunctionDecl a n]) Element = Some Element /\
  transfer (DeclStmt []) Element = Some Element /\
  transfer (DeclStmt (D1 :: D2 :: Ds)) Element = Some Element.
Proof.
  rewrite !transfer_refines_contract. repeat split.
  - intros HT. cbn. destruct Init; [rewrite HT |]; reflexivity.
  - cbn. destruct D1 as [a1 n1 T1 [I1 |] | a1 n1]; reflexivity.
Qed.

(** X11: a binary operator leaves the element as it was when its left
    operand is not itself a reference to a variable, an assignment
    through parentheses or a dereference included, and when it is not
    an assignment operator. *)
Theorem transfer_assignment_not_matched
        (Opc : BinaryOperatorKind) (L R : Expr)
        (Element : ConstantPropagationLattice) :
  ((forall a n T Init, L <> DeclRefExpr (VarDecl a n T Init)) ->
   transfer (ExprStmt (BinaryOperator Opc L R)) Element = Some Element) /\
  (isAssignmentOp Opc = false ->
   transfer (ExprStmt (BinaryOperator Opc L R)) Element = Some Element).
Proof.
  rewrite !transfer_refines_contract. split.
  - intros HL.
    destruct L as [v | [a n T Init | a n] | C As | Opc' L' R' | Sub | Sub
                  | T Sub]; try reflexivity.
    now destruct (HL a n T Init).
  - intros HOpc.
    destruct L as [v | [a n T Init | a n] | C As | Opc' L' R' | Sub | Sub
                  | T Sub]; try reflexivity.
    destruct Opc; try discriminate; reflexivity.
Qed.

(** X12: the statement transferred last decides: after any statement,
    a statement of one of the three kinds gives what it gives on its
    own, and transferring any statement twice gives what one transfer
    gives. *)
Theorem transfer_last_statement_decides
        (S1 S2 : Stmt) (Element : ConstantPropagationLattice) :
  (classify S2 <> OtherStatement ->
   (Next <- transfer S1 Element ;; transfer S2 Next) = transfer S2 Element) /\
  (Next <- transfer S1 Element ;; transfer S1 Next) = transfer S1 Element.
Proof.
  rewrite (transfer_refines_contract _ S1 Element). cbv beta iota.
  rewrite !transfer_refines_contract. split.
  - intros HK. destruct (classify S2); [reflexivity .. | congruence].
  - destruct (classify S1); reflexivity.
Qed.

(** X13: the transfer function distributes over [join]: transferring
    the join of two elements gives the join of their transfers. *)
Theorem transfer_distributes_over_join
        (S : Stmt) (A B : ConstantPropagationLattice) :
  exists A' B',
    transfer S A = Some A' /\ transfer S B = Some B' /\
    transfer S (fst (join A B)) = Some (fst (join A' B')).
Proof.
  do 2 eexists. rewrite !transfer_refines_contract. repeat split.
  destruct (classify S); cbn; now rewrite ?join_idempotent.
Qed.

(** X14: the transfer function gives bottom only on a statement of
    none of the three kinds and from bottom: a matched statement never
    gives bottom, and an element that has left bottom never returns
    to it. *)
Theorem transfer_bottom_only_from_bottom
        (S : Stmt) (Element : ConstantPropagationLattice) :
  transfer S Element = Some bottom <->
  classify S = OtherStatement /\ Element = bottom.
Proof.
  rewrite transfer_refines_contract. split.
  - intros [= H]. destruct (classify S) as [a I | a R | a |]; cbn in H;
      try discriminate; auto;
      unfold evaluated in H; destruct (EvaluateAsInt _); discriminate.
  - intros [-> ->]. reflexivity.
Qed.

End TransferCases.

Lemma transfer_declaration_with_other_initializer_witness :
  transfer foldConstant
    (DeclStmt [Scenario.targetInit
                 (CallExpr (ImplicitCastExpr (DeclRefExpr Scenario.g)) [])])
    (known (addressOf 2) 2)
  = Some top.
Proof.
  apply (transfer_declaration_with_other_initializer foldConstant);
    reflexivity.
Defined.

Lemma transfer_declaration_not_matched_witness :
  transfer foldConstant
    (DeclStmt [VarDecl 5 "f" Ty_Float (Some (IntegerLiteral 1))])
    (known (addressOf 1) 1)
  = Some (known (addressOf 1) 1).
Proof.
  destruct (transfer_declaration_not_matched foldConstant 5 "f" Ty_Float
              (Some (IntegerLiteral 1)) Scenario.target Scenario.target []
              (known (addressOf 1) 1)) as (_ & HFloat & _).
  apply HFloat. reflexivity.
Defined.

Lemma transfer_assignment_not_matched_witness :
  transfer foldConstant
    (ExprStmt (BinaryOperator BO_Assign (ParenExpr (DeclRefExpr Scenario.target))
                              (IntegerLiteral 5)))
    (known (addressOf 1) 1)
  = Some (known (addressOf 1) 1).
Proof.
  destruct (transfer_assignment_not_matched foldConstant BO_Assign
              (ParenExpr (DeclRefExpr Scenario.target)) (IntegerLiteral 5)
              (known (addressOf 1) 1)) as [HLeft _].
  apply HLeft. discriminate.
Defined.

Lemma transfer_last_statement_decides_witness :
  (Next <- transfer foldConstant
             (DeclStmt [Scenario.other (IntegerLiteral 2)]) bottom ;;
   transfer foldConstant
     (ExprStmt (BinaryOperator BO_Assign (DeclRefExpr Scenario.target)
                               (IntegerLiteral 3))) Next)
  = transfer foldConstant
      (ExprStmt (BinaryOperator BO_Assign (DeclRefExpr Scenario.target)
                                (IntegerLiteral 3))) bottom.
Proof.
  destruct (transfer_last_statement_decides foldConstant
              (DeclStmt [Scenario.other (IntegerLiteral 2)])
              (ExprStmt (BinaryOperator BO_Assign (DeclRefExpr Scenario.target)
                                        (IntegerLiteral 3)))
              bottom) as [HLast _].
  apply HLast. discriminate.
Defined.

(** ** The matchers of the unit tests *)

(** X15: [IsUnknown] holds exactly of bottom and [Varies] exactly of
    top.  [HasConstantVal(v)], for an integer [v], looks at the value
    only: with a signed [v] it holds of the known value [v] of any
    variable, with an unsigned [v] of 64 bits or more it holds of every
    known value that converts to [v], so that the unsigned 64-bit
    [18446744073709551615] matches the value [-1]; it never holds of
    bottom; it holds of top exactly when [v] is 0; and when [v] is not
    0 it holds of a reachable element only if that element is the
    known value of a variable, a value that compares equal to [v]. *)
Theorem test_matchers
        (EvaluateAsInt : Expr -> option Z)
        (v : Z) (p : MatcherParam) (E : ConstantPropagationLattice) :
  (IsUnknown E = true <-> E = bottom) /\
  (Varies E = true <-> E = top) /\
  (forall V, HasConstantVal (SignedParam v) (known V v) = true) /\
  (forall V width,
      (64 <= width)%N ->
      HasConstantVal (UnsignedParam width (v mod 2 ^ Z.of_N width))
                     (known V v) = true) /\
  (forall V,
      HasConstantVal (UnsignedParam 64 18446744073709551615)
                     (known V (-1)) = true) /\
  HasConstantVal p bottom = false /\
  (HasConstantVal p top = true <-> paramValue p = 0%Z) /\
  (paramValue p <> 0%Z -> reachable EvaluateAsInt E ->
   HasConstantVal p E = true ->
   exists a x, E = known (addressOf a) x /\ valueEquals x p = true) /\
  (v <> 0%Z -> reachable EvaluateAsInt E ->
   HasConstantVal (SignedParam v) E = true ->
   exists a, E = known (addressOf a) v).
Proof.
  assert (Htop : HasConstantVal p top = true <-> paramValue p = 0%Z).
  { destruct p as [x | width x];
      unfold HasConstantVal, top, valueEquals, paramValue; cbn [Data Value].
    - split; intros H; [apply Z.eqb_eq in H; congruence | now subst].
    - destruct (N.ltb width 64); rewrite ?Zmod_0_l;
        (split; intros H; [apply Z.eqb_eq in H; congruence | now subst]). }
  assert (Hreach : paramValue p <> 0%Z -> reachable EvaluateAsInt E ->
                   HasConstantVal p E = true ->
                   exists a x, E = known (addressOf a) x
                               /\ valueEquals x p = true).
  { intros Hp HR HC.
    destruct (reachable_shape _ E HR) as [-> | [-> | (a & w & ->)]].
    - discriminate HC.
    - now apply Htop in HC.
    - exists a, w. split; [reflexivity | exact HC]. }
  split; [apply Lattice_eq_true | split; [apply Lattice_eq_true |]].
  split; [intros V; apply Z.eqb_refl |].
  split.
  { intros V width Hw. cbn.
    destruct (N.ltb_spec width 64) as [Hlt |]; [lia | apply Z.eqb_refl]. }
  split; [intros V; reflexivity |].
  split; [reflexivity |].
  split; [exact Htop |].
  split; [exact Hreach |].
  clear Htop Hreach. intros Hv HR HC.
  destruct (reachable_shape _ E HR) as [-> | [-> | (a & w & ->)]].
  - discriminate HC.
  - apply Z.eqb_eq in HC. cbn in HC. congruence.
  - apply Z.eqb_eq in HC. cbn in HC. subst w. now exists a.
Qed.

Lemma test_matchers_witness :
  (exists a, known (addressOf 1) 5 = known (addressOf a) 5) /\
  HasConstantVal (UnsignedParam 64 (5 mod 2 ^ Z.of_N 64))
                 (known (addressOf 1) 5) = true.
Proof.
  destruct (test_matchers foldConstant 5 (SignedParam 5)
                          (known (addressOf 1) 5))
    as (_ & _ & _ & HUnsigned & _ & _ & _ & _ & HKnown).
  split.
  - apply HKnown.
    + discriminate.
    + apply (reachable_transfer foldConstant
               (DeclStmt [Scenario.targetInit (IntegerLiteral 5)]) bottom).
      * apply reachable_bottom.
      * reflexivity.
    + reflexivity.
  - apply HUnsigned. discriminate.
Defined.

(** ** Printing *)

Lemma append_assoc (s t u : string) : ((s ++ t) ++ u = s ++ (t ++ u))%string.
Proof. induction s as [| c s IH]; cbn; [reflexivity | now rewrite IH]. Qed.

Lemma append_cancel_l (s t u : string) :
  (s ++ t = s ++ u)%string -> t = u.
Proof. induction s as [| c s IH]; cbn; [auto |]. intros [= H]. auto. Qed.

Lemma hasBlank_append (s t : string) :
  hasBlank (s ++ t) = hasBlank s || hasBlank t.
Proof.
  induction s as [| c s IH]; cbn; [reflexivity |].
  now rewrite IH, orb_assoc.
Qed.

Lemma printed_value_has_blank (name num : string) :
  hasBlank (name ++ " = " ++ num) = true.
Proof. rewrite hasBlank_append. cbn. apply orb_true_r. Qed.

(** X16: printing never goes through a null [Var] on a reachable
    element: it fails exactly on the elements with a null variable and
    a value other than 0, which are not reachable.  It writes [None]
    exactly for bottom and [Any] exactly for top. *)
Theorem print_states
        (EvaluateAsInt : Expr -> option Z) (getName : positive -> string)
        (OS : string) (E : ConstantPropagationLattice) :
  (reachable EvaluateAsInt E -> exists text, print getName OS E = Some text) /\
  (print getName OS E = None <-> exists v, v <> 0%Z /\ E = known nullptr v) /\
  (print getName OS E = Some (OS ++ "None") <-> E = bottom) /\
  (print getName OS E = Some (OS ++ "Any") <-> E = top).
Proof.
  assert (HNone : print getName OS E = None <->
                  exists v, v <> 0%Z /\ E = known nullptr v).
  { unfold print. decide_eq; subst; split.
    - discriminate.
    - intros (v & _ & H). discriminate H.
    - discriminate.
    - intros (v & Hv & [= H]). congruence.
    - destruct E as [[[[| a] w] |]]; cbn; try discriminate.
      + intros _. exists w. split; [| reflexivity].
        intros ->. now apply n0.
      + intros _. now destruct n.
    - intros (v & Hv & ->). reflexivity. }
  split; [| split; [exact HNone | split]].
  - intros HR.
    destruct (print getName OS E) as [text |] eqn:HP; [eauto |].
    destruct (proj1 HNone eq_refl) as (v & Hv & ->).
    destruct (reachable_shape _ _ HR) as [H | [H | (a & w & H)]];
      try discriminate H.
    injection H as H. congruence.
  - unfold print. decide_eq; subst; split; try reflexivity; try congruence.
    + intros [= H]. apply append_cancel_l in H. discriminate H.
    + destruct E as [[[[| a] w] |]]; cbn; try discriminate.
      intros [= H]. rewrite !append_assoc in H. apply append_cancel_l in H.
      pose proof (printed_value_has_blank (getName a)
                    (NilZero.string_of_int (Z.to_int w))) as HB.
      rewrite H in HB. discriminate HB.
  - unfold print. decide_eq; subst; split; try reflexivity; try congruence;
      try discriminate.
    + intros [= H]. apply append_cancel_l in H. discriminate H.
    + destruct E as [[[[| a] w] |]]; cbn; try discriminate.
      intros [= H]. rewrite !append_assoc in H. apply append_cancel_l in H.
      pose proof (printed_value_has_blank (getName a)
                    (NilZero.string_of_int (Z.to_int w))) as HB.
      rewrite H in HB. discriminate HB.
Qed.

Lemma print_states_witness :
  exists text,
    print (fun _ => "target") "" (known (addressOf 1) 2) = Some text.
Proof.
  apply (print_states foldConstant (fun _ => "target") ""
                      (known (addressOf 1) 2)).
  apply (reachable_transfer foldConstant
           (DeclStmt [Scenario.targetInit (IntegerLiteral 2)]) bottom).
  - apply reachable_bottom.
  - reflexivity.
Defined.

(** [target = 2] is printed as the test output shows it. *)
Example print_known_value :
  print (fun _ => "target") "" (known (addressOf 1) 2) = Some "target = 2"
  /\ print (fun _ => "target") "" (known (addressOf 1) (-7))
     = Some "target = -7".
Proof. split; reflexivity. Qed.

(** ** Elements outside the three states *)

(** X17: the type has elements that are neither bottom, nor top, nor a
    known value: a null variable with a value other than 0.  No such
    element is reachable; [join] treats it as a value of its own,
    above bottom, below top and not comparable with a known value. *)
Theorem null_variable_with_value
        (EvaluateAsInt : Expr -> option Z) (v : Z) (Hv : v <> 0%Z) :
  isBottom (known nullptr v) = false /\
  isTop (known nullptr v) = false /\
  isKnown (known nullptr v) = false /\
  ~ reachable EvaluateAsInt (known nullptr v) /\
  join bottom (known nullptr v) = (known nullptr v, Changed) /\
  join (known nullptr v) top = (top, Changed) /\
  (forall a w, join (known nullptr v) (known (addressOf a) w) = (top, Changed)).
Proof.
  assert (Ht : isTop (known nullptr v) = false).
  { unfold isTop. destruct (Lattice_eq_reflect (known nullptr v) top) as [H |];
      [| reflexivity].
    injection H as H. congruence. }
  split; [reflexivity | split; [exact Ht | split; [reflexivity |]]].
  split; [| split; [| split]].
  - intros HR.
    destruct (reachable_shape _ _ HR) as [H | [H | (a & w & H)]];
      try discriminate H.
    injection H as H. congruence.
  - reflexivity.
  - unfold join. fold (isTop (known nullptr v)). rewrite Ht.
    destruct (Lattice_eq_reflect (known nullptr v) top) as [H |].
    + injection H as H. congruence.
    + reflexivity.
  - intros a w. unfold join. fold (isTop (known nullptr v)). rewrite Ht.
    reflexivity.
Qed.

Lemma null_variable_with_value_witness :
  ~ reachable foldConstant (known nullptr 5).
Proof.
  apply (null_variable_with_value foldConstant 5).
  discriminate.
Defined.
